(** * The store registry of [starlite/stores/registry.py]

    A shallow embedding of [StoreRegistry] (its constructor, [register],
    [get] and the [default] property) and of [default_default_factory],
    followed by the properties of the registry that the specification
    states.

    Python objects are references, methods mutate [self], a factory is an
    arbitrary callable that may allocate, keep state of its own or raise.
    The embedding keeps all of this explicit: a store is a reference with an
    address, a method is a function from the interpreter configuration to an
    outcome and a new configuration, and an exception is an outcome.

    Further down: sequences of calls and the invariants they keep, the
    same methods with [self._stores] as a reference to a dictionary on a
    heap (what the caller's dictionary and the registry share), and the
    route handlers that the test clients of [testing/helpers.py] pass
    on. *)

From stdpp Require Import gmap strings.

Local Open Scope string_scope.

(** ** Values *)

(** Addresses of heap objects. Two references denote the same object
    (Python's [is]) exactly when their addresses are equal. *)
Definition addr := nat.

(** A reference to a store object, as far as the registry can observe it:
    the address gives the identity, [store_truth] is the result of
    [bool(store)]. An object whose class defines neither [__bool__] nor
    [__len__] is true; a store class that defines [__len__] (for instance
    as its number of keys) is false while it is empty. *)
Record Store := mkStore { store_addr : addr; store_truth : bool }.

#[global] Instance Store_eq_dec : EqDecision Store.
Proof. solve_decision. Defined.

(** A raised exception: the name of its class and its message. *)
Record exn := mkExn { exn_class : string; exn_message : string }.

#[global] Instance exn_eq_dec : EqDecision exn.
Proof. solve_decision. Defined.

Definition ValueError (message : string) : exn := mkExn "ValueError" message.

(** What a call does: it returns a value or raises. *)
Inductive outcome (A : Type) : Type :=
| Returned (a : A)
| Raised (e : exn).
Arguments Returned {A} a.
Arguments Raised {A} e.

(** [bool(v)] for the value that [dict.get] yields: [None] is false, a
    store has the truth value of its class. *)
Definition py_bool (v : option Store) : bool :=
  match v with
  | None => false
  | Some s => store_truth s
  end.

Section Registry.

(** State that belongs to the callers and to the factories (closures,
    connections, counters); the registry never looks at it. *)
Context {U : Type}.

(** [repr] of a [str], Python's built-in used by the [!r] conversion. *)
Variable repr : string -> string.

(** The interpreter state outside the registry: the next free address of
    the allocator and the user state. *)
Record World := mkWorld { next_addr : addr; user : U }.

(** [Callable[[str], Store]]: called with the requested name, a factory
    may change the world, and returns a store or raises. It is handed the
    name only, so it does not reach the registry that calls it. *)
Definition Factory := string -> World -> outcome Store * World.

(** The two slots of a [StoreRegistry] instance. *)
Record StoreRegistry := mkStoreRegistry {
  _stores : gmap string Store;
  _default_factory : Factory
}.

(** A configuration: the registry the methods are called on, the world,
    and a log of the names the default factory was invoked with, oldest
    first. The log is only written by [call_default_factory]; it is there
    to count invocations. *)
Record Config := mkConfig {
  self : StoreRegistry;
  world : World;
  calls : list string
}.

(** A method body: state passing with exceptions. *)
Definition Py (A : Type) := Config -> outcome A * Config.

Definition ret {A} (a : A) : Py A := fun c => (Returned a, c).

Definition raise {A} (e : exn) : Py A := fun c => (Raised e, c).

Definition bind {A B} (m : Py A) (k : A -> Py B) : Py B :=
  fun c =>
    match m c with
    | (Returned a, c') => k a c'
    | (Raised e, c') => (Raised e, c')
    end.

Notation "x <- m ;; k" := (bind m (fun x => k))
  (at level 100, m at next level, right associativity).
Notation "m ;;; k" := (bind m (fun _ => k))
  (at level 100, right associativity).

(** [name in self._stores] *)
Definition stores_contains (name : string) : Py bool :=
  fun c => (Returned (bool_decide (is_Some (_stores (self c) !! name))), c).

(** [self._stores.get(name)] *)
Definition stores_get (name : string) : Py (option Store) :=
  fun c => (Returned (_stores (self c) !! name), c).

(** [self._stores[name] = store] *)
Definition stores_setitem (name : string) (store : Store) : Py unit :=
  fun c =>
    (Returned tt,
     mkConfig
       (mkStoreRegistry (<[name := store]> (_stores (self c)))
                        (_default_factory (self c)))
       (world c) (calls c)).

(** [self._default_factory(name)] *)
Definition call_default_factory (name : string) : Py Store :=
  fun c =>
    let (r, w) := _default_factory (self c) name (world c) in
    (r, mkConfig (self c) w (calls c ++ [name])).

(** [StoreRegistry.register] *)
Definition register (name : string) (store : Store) (override : bool)
  : Py unit :=
  present <- stores_contains name ;;
  if negb override && present
  then raise (ValueError
                ("Store with the name " ++ repr name ++ " already exists"))
  else stores_setitem name store.

(** [store = self._stores[name] = self._default_factory(name)]: the call
    comes first; when it raises nothing is assigned. *)
Definition create (name : string) : Py Store :=
  store <- call_default_factory name ;;
  stores_setitem name store ;;;
  ret store.

(** [StoreRegistry.get]. The test [if not store] is on the truth value
    of what [dict.get] returned: it takes the creating branch when the
    name is absent ([None]) and also when the store found is false. In
    the other branch [store] is a store, [None] being false. *)
Definition get (name : string) : Py Store :=
  store <- stores_get name ;;
  if negb (py_bool store)
  then create name
  else match store with
       | Some s => ret s
       | None => create name
       end.

(** The [default] property. *)
Definition default : Py Store := get "default".

(** Modelled from the spec: [MemoryStore()], whose class lives in
    [stores/memory.py]; the call always constructs a fresh in-memory
    store. The object is put at the next free address; its class defines
    neither [__bool__] nor [__len__], so it is true. *)
Definition MemoryStore (w : World) : Store * World :=
  (mkStore (next_addr w) true, mkWorld (S (next_addr w)) (user w)).

(** [default_default_factory] *)
Definition default_default_factory (name : string) : World -> outcome Store * World :=
  fun w => let (s, w') := MemoryStore w in (Returned s, w').

(** [StoreRegistry.__init__]. An argument left out is [None] here;
    [stores or {}] keeps a dictionary that is not empty and replaces
    [None] and the empty dictionary by a new empty one. *)
Definition __init__ (stores : option (gmap string Store))
    (default_factory : option Factory) : StoreRegistry :=
  mkStoreRegistry
    (match stores with
     | Some d => if decide (d = ∅) then ∅ else d
     | None => ∅
     end)
    (match default_factory with
     | Some f => f
     | None => default_default_factory
     end).

(** Names for the configurations the lemmas below speak of. After
    [self._stores[name] = s], in the world [w] the factory left, with
    the call logged: *)
Definition created (name : string) (s : Store) (w : World) (c : Config)
  : Config :=
  mkConfig
    (mkStoreRegistry (<[name := s]> (_stores (self c)))
                     (_default_factory (self c)))
    w (calls c ++ [name]).

(** After a factory call that raised: the registry is as it was. *)
Definition failed (name : string) (w : World) (c : Config) : Config :=
  mkConfig (self c) w (calls c ++ [name]).

(** After [self._stores[name] = store] in [register]. *)
Definition registered (name : string) (store : Store) (c : Config)
  : Config :=
  mkConfig
    (mkStoreRegistry (<[name := store]> (_stores (self c)))
                     (_default_factory (self c)))
    (world c) (calls c).

End Registry.

Arguments World U : clear implicits.
Arguments Factory U : clear implicits.
Arguments StoreRegistry U : clear implicits.
Arguments Config U : clear implicits.

(** ** Concrete stores, factories and configurations

    The objects on which the methods are run below; the user state is
    empty. *)

(** [repr] on a name of printable ASCII characters without quote or
    backslash: the name between single quotes. *)
Definition repr_plain (s : string) : string := "'" ++ s ++ "'".

(** The constructor of a store class that defines [__len__] as its number
    of keys: a new object, false because it is empty. *)
Definition LenStore (w : World unit) : Store * World unit :=
  (mkStore (next_addr w) false, mkWorld (S (next_addr w)) (user w)).

(** [lambda name: LenStore()] *)
Definition len_store_factory : Factory unit :=
  fun _ w => let (s, w') := LenStore w in (Returned s, w').

Definition backend_down : exn := mkExn "ConnectionError" "backend unreachable".

(** A factory that raises. *)
Definition failing_factory : Factory unit :=
  fun _ w => (Raised backend_down, w).

(** The world at start-up, and two stores made before the registry: one of
    a class with [__len__], still empty, and one in-memory store. *)
Definition boot : World unit := mkWorld 2 tt.
Definition empty_store : Store := mkStore 0 false.
Definition memory_store : Store := mkStore 1 true.

(** A configuration with an empty log. *)
Definition start (r : StoreRegistry unit) : Config unit := mkConfig r boot [].

(** The configuration after a call, and its outcome. *)
Definition after {U A} (x : outcome A * Config U) : Config U := snd x.
Definition result {U A} (x : outcome A * Config U) : outcome A := fst x.

(** [StoreRegistry()] *)
Definition empty_registry : StoreRegistry unit := __init__ None None.

(** [StoreRegistry(default_factory=lambda name: LenStore())] *)
Definition len_registry : StoreRegistry unit :=
  __init__ None (Some len_store_factory).

(** [StoreRegistry(stores={'x': empty_store})] *)
Definition seeded_registry : StoreRegistry unit :=
  __init__ (Some {["x" := empty_store]}) None.

(** [StoreRegistry(stores={'x': empty_store}, default_factory=failing)] *)
Definition fragile_registry : StoreRegistry unit :=
  __init__ (Some {["x" := empty_store]}) (Some failing_factory).

(** The name of length zero. *)
Definition no_name : string := EmptyString.

(** ** Sequences of calls

    What a client of the registry does over time: it calls [register],
    [get] and [default] in some order, and goes on after a call that
    raised (it caught the exception). *)

Inductive call : Type :=
| CallRegister (name : string) (store : Store) (override : bool)
| CallGet (name : string)
| CallDefault.

(** The name a call looks up, when it is a lookup. *)
Definition looked_up (k : call) : option string :=
  match k with
  | CallRegister _ _ _ => None
  | CallGet name => Some name
  | CallDefault => Some "default"
  end.



(** The store a call hands to the registry was allocated before address
    [n]. *)
Definition registers_below (n : addr) (k : call) : bool :=
  match k with
  | CallRegister _ store _ => bool_decide (store_addr store < n)
  | _ => true
  end.

Section Calls.

Context {U : Type}.
Variable repr : string -> string.

(** The configuration after one call, whatever its outcome. *)
Definition perform (k : call) (c : Config U) : Config U :=
  match k with
  | CallRegister name store override =>
      after (register repr name store override c)
  | CallGet name => after (get name c)
  | CallDefault => after (default c)
  end.

(** The configuration after the calls of [ks], first to last. *)
Definition perform_all (ks : list call) (c : Config U) : Config U :=
  foldl (fun c k => perform k c) c ks.


(** Every store bound in the registry was allocated: its address is below
    the next free one. *)
Definition allocated (c : Config U) : Prop :=
  forall name s,
    _stores (self c) !! name = Some s -> store_addr s < next_addr (world c).

(** The stores at address [n0] or above are bound under one name each. *)
Definition exclusive (n0 : addr) (c : Config U) : Prop :=
  forall n m s s',
    n <> m ->
    _stores (self c) !! n = Some s ->
    _stores (self c) !! m = Some s' ->
    n0 <= store_addr s ->
    s <> s'.

End Calls.

(** ** The dictionary as a shared object

    [self._stores] holds a reference: [stores or {}] keeps the caller's
    dictionary when it is not empty, so the caller and the registry then
    work on one object. Here dictionaries live on a heap and the registry
    holds an address; the methods are those above, with every access to
    [self._stores] made through that address. *)

Section References.

Context {U : Type}.
Variable repr : string -> string.

(** The heap of dictionary objects, with the world and the log as in a
    [Config]. Dictionaries and stores are allocated from one supply of
    addresses, [next_addr] of the world. *)
Record Memory := mkMemory {
  dicts : gmap addr (gmap string Store);
  heap_world : World U;
  heap_calls : list string
}.

(** A [StoreRegistry] instance whose [_stores] slot is a reference. *)
Record RegistryObject := mkRegistryObject {
  stores_at : addr;
  factory_of : Factory U
}.

(** The dictionary an address refers to. *)
Definition dict_at (a : addr) (m : Memory) : gmap string Store :=
  match dicts m !! a with
  | Some d => d
  | None => ∅
  end.

(** [{}]: a new empty dictionary at the next free address. *)
Definition new_dict (m : Memory) : addr * Memory :=
  (next_addr (heap_world m),
   mkMemory (<[next_addr (heap_world m) := ∅]> (dicts m))
            (mkWorld (S (next_addr (heap_world m))) (user (heap_world m)))
            (heap_calls m)).

(** [StoreRegistry.__init__] on references: [stores] is [None] or the
    address of the caller's dictionary. [stores or {}] is [stores] itself
    when that dictionary is not empty, and a new dictionary otherwise. *)
Definition ref_init (stores : option addr)
    (default_factory : option (Factory U)) (m : Memory)
  : RegistryObject * Memory :=
  let f := match default_factory with
           | Some f => f
           | None => default_default_factory
           end in
  match stores with
  | Some a =>
      if decide (dict_at a m = ∅)
      then let (b, m') := new_dict m in (mkRegistryObject b f, m')
      else (mkRegistryObject a f, m)
  | None => let (b, m') := new_dict m in (mkRegistryObject b f, m')
  end.

Definition RefPy (A : Type) := Memory -> outcome A * Memory.

Definition ref_bind {A B} (x : RefPy A) (k : A -> RefPy B) : RefPy B :=
  fun m =>
    match x m with
    | (Returned a, m') => k a m'
    | (Raised e, m') => (Raised e, m')
    end.

(** [name in self._stores] *)
Definition ref_contains (o : RegistryObject) (name : string) : RefPy bool :=
  fun m =>
    (Returned (bool_decide (is_Some (dict_at (stores_at o) m !! name))), m).

(** [self._stores.get(name)] *)
Definition ref_dict_get (o : RegistryObject) (name : string)
  : RefPy (option Store) :=
  fun m => (Returned (dict_at (stores_at o) m !! name), m).

(** [self._stores[name] = store]: the dictionary is updated in place. *)
Definition ref_setitem (o : RegistryObject) (name : string) (store : Store)
  : RefPy unit :=
  fun m =>
    (Returned tt,
     mkMemory
       (<[stores_at o := <[name := store]> (dict_at (stores_at o) m)]>
          (dicts m))
       (heap_world m) (heap_calls m)).

(** [self._default_factory(name)] *)
Definition ref_call_factory (o : RegistryObject) (name : string)
  : RefPy Store :=
  fun m =>
    let (r, w) := factory_of o name (heap_world m) in
    (r, mkMemory (dicts m) w (heap_calls m ++ [name])).

(** [StoreRegistry.register] on references. *)
Definition ref_register (o : RegistryObject) (name : string) (store : Store)
    (override : bool) : RefPy unit :=
  ref_bind (ref_contains o name) (fun present =>
  if negb override && present
  then fun m =>
         (Raised (ValueError
                    ("Store with the name " ++ repr name ++ " already exists")),
          m)
  else ref_setitem o name store).

(** [store = self._stores[name] = self._default_factory(name)] *)
Definition ref_create (o : RegistryObject) (name : string) : RefPy Store :=
  ref_bind (ref_call_factory o name) (fun store =>
  ref_bind (ref_setitem o name store) (fun _ =>
  fun m => (Returned store, m))).

(** [StoreRegistry.get] on references. *)
Definition ref_get (o : RegistryObject) (name : string) : RefPy Store :=
  ref_bind (ref_dict_get o name) (fun store =>
  if negb (py_bool store)
  then ref_create o name
  else match store with
       | Some s => fun m => (Returned s, m)
       | None => ref_create o name
       end).

(** The [default] property on references. *)
Definition ref_default (o : RegistryObject) : RefPy Store :=
  ref_get o "default".

(** One call of a client on the registry object [o]. *)
Definition ref_perform (o : RegistryObject) (k : call) (m : Memory) : Memory :=
  match k with
  | CallRegister name store override =>
      snd (ref_register o name store override m)
  | CallGet name => snd (ref_get o name m)
  | CallDefault => snd (ref_default o m)
  end.

Definition ref_perform_all (o : RegistryObject) (ks : list call) (m : Memory)
  : Memory :=
  foldl (fun m k => ref_perform o k m) m ks.

(** The configuration a registry object stands for: its dictionary read
    off the heap, with its factory, the world and the log. *)
Definition view (o : RegistryObject) (m : Memory) : Config U :=
  mkConfig (mkStoreRegistry (dict_at (stores_at o) m) (factory_of o))
           (heap_world m) (heap_calls m).

End References.

Arguments Memory U : clear implicits.
Arguments RegistryObject U : clear implicits.

(** A heap for the runs below: the caller holds an empty dictionary at
    address 2 and one with [memory_store] under ['m'] at address 3. *)
Definition heap0 : Memory unit :=
  mkMemory {[2 := ∅; 3 := {["m" := memory_store]}]} (mkWorld 4 tt) [].

(** ** The route handlers of a test client ([testing/helpers.py])

    [create_test_client] and [create_async_test_client] start with the
    same three lines, which bring the argument [route_handlers] to the
    form that the application is constructed with. *)

(** What a caller passes as [route_handlers]: [None], one object (a route
    handler, a router, a controller class), or a sequence object of the
    caller; [VTuple] is a tuple that the function itself builds. *)
#[warnings="-register-all"]
Inductive value : Type :=
| VNone
| VObject (a : addr)
| VSequence (a : addr) (items : list value)
| VTuple (items : list value).

(** [isinstance(v, Sequence)] *)
Definition isinstance_Sequence (v : value) : bool :=
  match v with
  | VSequence _ _ | VTuple _ => true
  | VNone | VObject _ => false
  end.

(** The elements of a sequence. *)
Definition items_of (v : value) : list value :=
  match v with
  | VSequence _ items | VTuple items => items
  | VNone | VObject _ => []
  end.

Section TestClient.

(** [is_class_and_subclass(v, Controller)], from [utils/predicates.py]. *)
Variable is_controller_class : value -> bool.

(** The first lines of [create_test_client]; the result is what
    [Starlite(route_handlers=...)] receives. *)
Definition create_test_client_route_handlers (route_handlers : value)
  : value :=
  let route_handlers :=
    match route_handlers with
    | VNone => VTuple []
    | v => v
    end in
  if is_controller_class route_handlers
     || negb (isinstance_Sequence route_handlers)
  then VTuple [route_handlers]
  else route_handlers.

(** The first lines of [create_async_test_client]. *)
Definition create_async_test_client_route_handlers (route_handlers : value)
  : value :=
  let route_handlers :=
    match route_handlers with
    | VNone => VTuple []
    | v => v
    end in
  if is_controller_class route_handlers
     || negb (isinstance_Sequence route_handlers)
  then VTuple [route_handlers]
  else route_handlers.

End TestClient.

(** A predicate for the runs below: the objects at even addresses are
    controller classes. *)
Definition even_objects_are_controllers (v : value) : bool :=
  match v with
  | VObject a => Nat.even a
  | _ => false
  end.

(** [StoreRegistry(stores={'m': memory_store})] *)
Definition stocked_registry : StoreRegistry unit :=
  __init__ (Some {["m" := memory_store]}) None.

(** Calls of a client: lookups, a refused registration, registrations
    under other names. *)
Definition session : list call :=
  [CallGet "a"; CallGet "m"; CallRegister "m" memory_store false;
   CallGet "a"; CallRegister "b" memory_store true; CallDefault;
   CallGet "b"; CallGet "a"].

(** Runs a closed configuration to its end and compares. *)
Ltac run := repeat split; vm_compute; reflexivity.

(** ** Equations of the methods *)

Section RegistryFacts.

Context {U : Type}.
Variable repr : string -> string.

Implicit Types (c : Config U) (name : string) (s store : Store).

Lemma create_returned name c s w :
  _default_factory (self c) name (world c) = (Returned s, w) ->
  create name c = (Returned s, created name s w c).
Proof.
  intros Hf. unfold create, bind, call_default_factory.
  rewrite Hf. reflexivity.
Qed.

Lemma create_raised name c e w :
  _default_factory (self c) name (world c) = (Raised e, w) ->
  create name c = (Raised e, failed name w c).
Proof.
  intros Hf. unfold create, bind, call_default_factory.
  rewrite Hf. reflexivity.
Qed.

Lemma get_absent name c :
  _stores (self c) !! name = None -> get name c = create name c.
Proof.
  intros Hl. unfold get, bind, stores_get. rewrite Hl. reflexivity.
Qed.

Lemma get_true name c s :
  _stores (self c) !! name = Some s -> store_truth s = true ->
  get name c = (Returned s, c).
Proof.
  intros Hl Ht. unfold get, bind, stores_get. rewrite Hl. simpl.
  rewrite Ht. reflexivity.
Qed.

Lemma get_false name c s :
  _stores (self c) !! name = Some s -> store_truth s = false ->
  get name c = create name c.
Proof.
  intros Hl Ht. unfold get, bind, stores_get. rewrite Hl. simpl.
  rewrite Ht. reflexivity.
Qed.

(** Whatever branch [get] takes, the result is the hit or [create]. *)
Lemma get_cases name c :
  (exists s, _stores (self c) !! name = Some s /\ store_truth s = true /\
             get name c = (Returned s, c))
  \/ (py_bool (_stores (self c) !! name) = false /\
      get name c = create name c).
Proof.
  destruct (_stores (self c) !! name) as [s|] eqn:Hl.
  - destruct (store_truth s) eqn:Ht.
    + left. exists s. eauto using get_true.
    + right. split; [exact Ht | eauto using get_false].
  - right. split; [reflexivity | auto using get_absent].
Qed.

(** [create] changes the registry at [name] only, and only when the
    factory returned. *)
Lemma create_cases name c :
  (exists s w, _default_factory (self c) name (world c) = (Returned s, w) /\
               create name c = (Returned s, created name s w c))
  \/ (exists e w, _default_factory (self c) name (world c) = (Raised e, w) /\
                  create name c = (Raised e, failed name w c)).
Proof.
  destruct (_default_factory (self c) name (world c)) as [[s|e] w] eqn:Hf.
  - left. exists s, w. eauto using create_returned.
  - right. exists e, w. eauto using create_raised.
Qed.

Lemma register_absent name store override c :
  _stores (self c) !! name = None ->
  register repr name store override c
  = (Returned tt, registered name store c).
Proof.
  intros Hl. unfold register, bind, stores_contains, stores_setitem.
  rewrite Hl. rewrite bool_decide_eq_false_2 by (intros [? ?]; discriminate).
  rewrite andb_false_r. reflexivity.
Qed.

Lemma register_override name store c :
  register repr name store true c
  = (Returned tt, registered name store c).
Proof. reflexivity. Qed.

Lemma register_duplicate name store c old :
  _stores (self c) !! name = Some old ->
  register repr name store false c
  = (Raised (ValueError
               ("Store with the name " ++ repr name ++ " already exists")),
     c).
Proof.
  intros Hl. unfold register, bind, stores_contains, raise.
  rewrite Hl. rewrite bool_decide_eq_true_2 by eauto. reflexivity.
Qed.

(** [register] leaves the registry as it was or binds [name]. *)
Lemma register_cases name store override c :
  (exists e, register repr name store override c = (Raised e, c))
  \/ register repr name store override c
     = (Returned tt, registered name store c).
Proof.
  destruct override; [right; apply register_override |].
  destruct (_stores (self c) !! name) as [old|] eqn:Hl.
  - left. eexists. eapply register_duplicate, Hl.
  - right. apply register_absent, Hl.
Qed.


Lemma register_self name store override c :
  self (snd (register repr name store override c)) = self c
  \/ self (snd (register repr name store override c))
     = mkStoreRegistry (<[name := store]> (_stores (self c)))
                       (_default_factory (self c)).
Proof.
  destruct (register_cases name store override c) as [[e ->] | ->].
  - left. reflexivity.
  - right. reflexivity.
Qed.

(** ** The fallback factory *)

(** C7. When the registry was constructed without a factory, the fallback
    factory ignores the name it is given and constructs a fresh in-memory
    store on every invocation; so for two distinct names [a] and [b]
    without an entry, [get a] and then [get b] each invoke the factory
    once and return two distinct store objects, both new (at addresses not
    in use before), each bound under its own name. *)
Theorem fallback_factory_store_per_name
    (stores : option (gmap string Store)) (a b : string) c :
  a <> b ->
  _default_factory (self c) = _default_factory (__init__ (U:=U) stores None) ->
  _stores (self c) !! a = None ->
  _stores (self c) !! b = None ->
  (forall w : World U,
     default_default_factory a w = default_default_factory b w /\
     store_addr (fst (MemoryStore w)) = next_addr w /\
     next_addr (snd (MemoryStore w)) = S (next_addr w)) /\
  exists sa sb c1 c2,
    get a c = (Returned sa, c1) /\
    get b c1 = (Returned sb, c2) /\
    sa <> sb /\
    store_addr sa = next_addr (world c) /\
    store_addr sb = next_addr (world c1) /\
    (forall s, store_addr s < next_addr (world c) -> s <> sa /\ s <> sb) /\
    calls c2 = (calls c ++ [a; b])%list /\
    _stores (self c2) !! a = Some sa /\
    _stores (self c2) !! b = Some sb.
Proof.
  intros Hab Hfac Ha Hb. simpl in Hfac.
  split; [intros w; repeat split |].
  set (n := next_addr (world c)).
  set (sa := mkStore n true).
  set (sb := mkStore (S n) true).
  set (c1 := created a sa (mkWorld (S n) (user (world c))) c).
  assert (H1 : get a c = (Returned sa, c1)).
  { rewrite get_absent by exact Ha. apply create_returned.
    rewrite Hfac. reflexivity. }
  assert (Hb1 : _stores (self c1) !! b = None).
  { simpl. rewrite lookup_insert_ne by exact Hab. exact Hb. }
  exists sa, sb, c1, (created b sb (mkWorld (S (S n)) (user (world c))) c1).
  split; [exact H1 |]. split.
  { rewrite get_absent by exact Hb1. apply create_returned.
    simpl. rewrite Hfac. reflexivity. }
  split; [unfold sa, sb; intros [=]; lia |].
  split; [reflexivity |]. split; [reflexivity |]. split.
  { intros s Hs. split; intros ->; simpl in Hs; lia. }
  split; [simpl; rewrite <- app_assoc; reflexivity |].
  split; simpl.
  - rewrite lookup_insert_ne by congruence. apply lookup_insert_eq.
  - apply lookup_insert_eq.
Qed.

(** ** Frame *)


End RegistryFacts.

(** ** What [get] and [register] guarantee *)

Section RegistryContract.

Context {U : Type}.
Variable repr : string -> string.

Implicit Types (c : Config U) (name : string) (s store : Store).

(** On a name without an entry, [get] invokes the default factory once,
    with that name; when the factory returns a store, [get] binds it under
    the name, in the world the factory left, and returns it. *)
Theorem get_absent_invokes_factory_once name c s w :
  _stores (self c) !! name = None ->
  _default_factory (self c) name (world c) = (Returned s, w) ->
  get name c = (Returned s, created name s w c) /\
  calls (created name s w c) = (calls c ++ [name])%list /\
  _stores (self (created name s w c)) !! name = Some s.
Proof.
  intros Hl Hf. split; [| split].
  - rewrite get_absent by exact Hl. apply create_returned, Hf.
  - reflexivity.
  - simpl. apply lookup_insert_eq.
Qed.

(** A store that is true and bound to a name is what [get] returns for
    that name, however many times it is asked: no call changes the
    registry or the world, and the factory is never invoked. *)
Theorem get_true_store_stable name c s (k : nat) :
  _stores (self c) !! name = Some s ->
  store_truth s = true ->
  get name c = (Returned s, c) /\
  Nat.iter k (fun c' => after (get name c')) c = c.
Proof.
  intros Hl Ht. assert (Hg : get name c = (Returned s, c)) by eauto using get_true.
  split; [exact Hg |].
  induction k as [|k IH]; [reflexivity |].
  simpl. rewrite IH, Hg. reflexivity.
Qed.

(** [register] raises exactly when the name has an entry and [override] is
    false. The exception is the [ValueError] whose message carries the
    [repr] of the name, and the configuration is as before the call.
    Otherwise [register] returns and the name is bound to the store. *)
Theorem register_raises_iff name store override c :
  ((exists e, result (register repr name store override c) = Raised e)
   <-> (is_Some (_stores (self c) !! name) /\ override = false)) /\
  (forall e, result (register repr name store override c) = Raised e ->
     e = ValueError ("Store with the name " ++ repr name ++ " already exists")
     /\ after (register repr name store override c) = c) /\
  (result (register repr name store override c) = Returned tt ->
     after (register repr name store override c) = registered name store c
     /\ _stores (self (after (register repr name store override c))) !! name
        = Some store).
Proof.
  destruct override.
  - rewrite register_override. simpl. split; [| split].
    + split; [intros [e [=]] | intros [_ [=]]].
    + intros e [=].
    + intros _. split; [reflexivity | apply lookup_insert_eq].
  - destruct (_stores (self c) !! name) as [old|] eqn:Hl.
    + rewrite (register_duplicate repr name store c old Hl). simpl.
      split; [| split].
      * split; [intros _; split; [eauto | reflexivity] | intros _; eauto].
      * intros e [= <-]. split; reflexivity.
      * intros [=].
    + rewrite (register_absent repr name store false c Hl). simpl.
      split; [| split].
      * split; [intros [e [=]] | intros [[x [=]] _]].
      * intros e [=].
      * intros _. split; [reflexivity | apply lookup_insert_eq].
Qed.



(** After a [register] that returned, with a store that is true, [get] on
    the same name returns that very store, invokes no factory and changes
    nothing. *)
Theorem register_then_get_true_store name store override c :
  store_truth store = true ->
  result (register repr name store override c) = Returned tt ->
  get name (after (register repr name store override c))
  = (Returned store, after (register repr name store override c)).
Proof.
  intros Ht Hr.
  destruct (register_cases repr name store override c) as [[e He] | Hok].
  - rewrite He in Hr. discriminate.
  - rewrite Hok. apply get_true; [apply lookup_insert_eq | exact Ht].
Qed.

(** A store that is false and bound to a name is treated by [get] as if
    the name had no entry: the factory is invoked, and the store it returns
    is bound in place of the registered one and returned. *)
Theorem get_false_store_overwritten name c s s' w :
  _stores (self c) !! name = Some s ->
  store_truth s = false ->
  _default_factory (self c) name (world c) = (Returned s', w) ->
  get name c = (Returned s', created name s' w c) /\
  _stores (self (created name s' w c)) !! name = Some s'.
Proof.
  intros Hl Ht Hf. split.
  - rewrite (get_false name c s Hl Ht). apply create_returned, Hf.
  - simpl. apply lookup_insert_eq.
Qed.

End RegistryContract.

(** ** Runs on concrete registries *)

Lemma fallback_factory_store_per_name_witness :
  "a" <> "b" /\
  exists sa sb c1 c2,
    get "a" (start empty_registry) = (Returned sa, c1) /\
    get "b" c1 = (Returned sb, c2) /\
    sa <> sb.
Proof.
  split; [discriminate |].
  destruct (fallback_factory_store_per_name (U:=unit) None "a" "b"
              (start empty_registry))
    as [_ (sa & sb & c1 & c2 & H1 & H2 & Hne & _)];
    [discriminate | reflexivity | reflexivity | reflexivity |].
  exists sa, sb, c1, c2. split; [exact H1 |]. split; [exact H2 | exact Hne].
Defined.


(** ** Stores that are false

    [get] tests [if not store], the truth value of the store it found,
    where its docstring speaks of no store being registered. The runs below
    are on stores of a class whose empty instances are false. *)

(** C1 at a factory whose stores are false, on the name ['x'] without an
    entry: the first [get] invokes the factory once with ['x'], binds the
    returned store and returns it; the second [get] invokes the factory a
    second time and returns another store object, which replaces the
    first. *)
Theorem get_twice_false_store_two_invocations :
  result (get "x" (start len_registry)) = Returned (mkStore 2 false) /\
  calls (after (get "x" (start len_registry))) = ["x"] /\
  _stores (self (after (get "x" (start len_registry)))) !! "x"
    = Some (mkStore 2 false) /\
  result (get "x" (after (get "x" (start len_registry))))
    = Returned (mkStore 3 false) /\
  calls (after (get "x" (after (get "x" (start len_registry)))))
    = ["x"; "x"] /\
  _stores (self (after (get "x" (after (get "x" (start len_registry))))))
    !! "x" = Some (mkStore 3 false).
Proof. run. Qed.

(** C2 at a registry constructed with a false store under ['x']: a single
    [get('x')], with no [register] call at all, replaces the entry by a
    store from the factory. *)
Theorem get_replaces_false_store :
  _stores (self (start seeded_registry)) !! "x" = Some empty_store /\
  result (get "x" (start seeded_registry)) = Returned (mkStore 2 true) /\
  _stores (self (after (get "x" (start seeded_registry)))) !! "x"
    = Some (mkStore 2 true) /\
  calls (after (get "x" (start seeded_registry))) = ["x"].
Proof. run. Qed.

(** C3 at a false store: [register('x', empty_store)] succeeds and binds
    the store, and the [get('x')] that follows invokes the default factory
    and returns the factory's store, not the registered one. *)
Theorem get_after_register_false_store :
  result (register repr_plain "x" empty_store false (start empty_registry))
    = Returned tt /\
  _stores (self (after (register repr_plain "x" empty_store false
                          (start empty_registry)))) !! "x"
    = Some empty_store /\
  result (get "x" (after (register repr_plain "x" empty_store false
                            (start empty_registry))))
    = Returned (mkStore 2 true) /\
  calls (after (get "x" (after (register repr_plain "x" empty_store false
                                  (start empty_registry)))))
    = ["x"].
Proof. run. Qed.

(** C4 at a false store: after [register('x', empty_store)], the call
    [register('x', memory_store)] without override raises the [ValueError]
    that names ['x'] and leaves the entry as it was; the [get('x')] that
    follows does not return the registered store but one from the factory,
    which it binds in its place. *)
Theorem get_after_refused_register_false_store :
  result (register repr_plain "x" memory_store false
            (after (register repr_plain "x" empty_store false
                      (start empty_registry))))
    = Raised (ValueError "Store with the name 'x' already exists") /\
  _stores (self (after (register repr_plain "x" memory_store false
                          (after (register repr_plain "x" empty_store false
                                    (start empty_registry)))))) !! "x"
    = Some empty_store /\
  result (get "x"
            (after (register repr_plain "x" memory_store false
                      (after (register repr_plain "x" empty_store false
                                (start empty_registry))))))
    = Returned (mkStore 2 true) /\
  _stores (self (after (get "x"
            (after (register repr_plain "x" memory_store false
                      (after (register repr_plain "x" empty_store false
                                (start empty_registry)))))))) !! "x"
    = Some (mkStore 2 true).
Proof. run. Qed.

(** C5 at a false store under ['x'] and a factory that raises: [get('x')]
    invokes the factory, the factory's exception reaches the caller as it
    is and the registry is unchanged, so it still holds an entry under
    ['x']. *)
Theorem get_failing_factory_false_store_keeps_entry :
  result (get "x" (start fragile_registry)) = Raised backend_down /\
  calls (after (get "x" (start fragile_registry))) = ["x"] /\
  self (after (get "x" (start fragile_registry))) = fragile_registry /\
  _stores (self (after (get "x" (start fragile_registry)))) !! "x"
    = Some empty_store.
Proof. run. Qed.

(** C6 at a factory whose stores are false: [default] runs as
    [get('default')] does, but [default] followed by [get('default')]
    invokes the factory twice for ['default'] and the two calls return two
    different store objects. *)
Theorem default_then_get_false_store :
  default (start len_registry) = get "default" (start len_registry) /\
  result (default (start len_registry)) = Returned (mkStore 2 false) /\
  result (get "default" (after (default (start len_registry))))
    = Returned (mkStore 3 false) /\
  result (default (after (default (start len_registry))))
    = Returned (mkStore 3 false) /\
  calls (after (get "default" (after (default (start len_registry)))))
    = ["default"; "default"].
Proof. run. Qed.

(** C9 at a false store: [register] accepts the name of length zero and
    binds the store under it, a second [register] without override raises
    as for any name, and [get] on that name invokes the factory with it and
    returns the factory's store although a store is bound. *)
Theorem get_no_name_false_store :
  result (register repr_plain no_name empty_store false
            (start empty_registry)) = Returned tt /\
  _stores (self (after (register repr_plain no_name empty_store false
                          (start empty_registry)))) !! no_name
    = Some empty_store /\
  result (register repr_plain no_name memory_store false
            (after (register repr_plain no_name empty_store false
                      (start empty_registry))))
    = Raised (ValueError "Store with the name '' already exists") /\
  result (get no_name (after (register repr_plain no_name empty_store false
                                (start empty_registry))))
    = Returned (mkStore 2 true) /\
  calls (after (get no_name
                  (after (register repr_plain no_name empty_store false
                            (start empty_registry)))))
    = [no_name].
Proof. run. Qed.

(** ** Runs of the contract *)

Lemma get_absent_invokes_factory_once_witness :
  _stores (self (start empty_registry)) !! "x" = None /\
  get "x" (start empty_registry)
  = (Returned (mkStore 2 true),
     created "x" (mkStore 2 true) (mkWorld 3 tt) (start empty_registry)).
Proof.
  split; [reflexivity |].
  apply (get_absent_invokes_factory_once "x" (start empty_registry)
           (mkStore 2 true) (mkWorld 3 tt)); reflexivity.
Defined.

Lemma get_true_store_stable_witness :
  store_truth memory_store = true /\
  Nat.iter 3 (fun c' => after (get "m" c'))
    (start (__init__ (Some {["m" := memory_store]}) None))
  = start (__init__ (Some {["m" := memory_store]}) None).
Proof.
  split; [reflexivity |].
  apply (get_true_store_stable "m"
           (start (__init__ (Some {["m" := memory_store]}) None))
           memory_store 3); reflexivity.
Defined.


Lemma register_then_get_true_store_witness :
  store_truth memory_store = true /\
  result (get "x" (after (register repr_plain "x" memory_store false
                            (start empty_registry))))
  = Returned memory_store.
Proof.
  split; [reflexivity |].
  rewrite (register_then_get_true_store repr_plain "x" memory_store false
             (start empty_registry)); reflexivity.
Defined.

Lemma get_false_store_overwritten_witness :
  store_truth empty_store = false /\
  get "x" (start seeded_registry)
  = (Returned (mkStore 2 true),
     created "x" (mkStore 2 true) (mkWorld 3 tt) (start seeded_registry)).
Proof.
  split; [reflexivity |].
  apply (get_false_store_overwritten "x" (start seeded_registry) empty_store
           (mkStore 2 true) (mkWorld 3 tt)); reflexivity.
Defined.


(** ** Invariants over sequences of calls *)

Section RegistryRuns.

Context {U : Type}.
Variable repr : string -> string.

Implicit Types (c : Config U) (name : string) (s store : Store)
  (k : call) (ks : list call).

(** One call leaves the configuration as it was (a lookup that found a
    true store, a [register] that raised), binds the store it was given,
    binds the store the factory returned, or only records a factory call
    that raised. *)
Lemma perform_cases k c :
  perform repr k c = c
  \/ (exists n s o, k = CallRegister n s o /\
        (o = true \/ _stores (self c) !! n = None) /\
        perform repr k c = registered n s c)
  \/ (exists n s w, looked_up k = Some n /\
        py_bool (_stores (self c) !! n) = false /\
        _default_factory (self c) n (world c) = (Returned s, w) /\
        perform repr k c = created n s w c)
  \/ (exists n e w, looked_up k = Some n /\
        py_bool (_stores (self c) !! n) = false /\
        _default_factory (self c) n (world c) = (Raised e, w) /\
        perform repr k c = failed n w c).
Proof.
  assert (Hget : forall n, looked_up k = Some n ->
            perform repr k c = after (get n c) ->
            perform repr k c = c
            \/ (exists n s o, k = CallRegister n s o /\
                  (o = true \/ _stores (self c) !! n = None) /\
                  perform repr k c = registered n s c)
            \/ (exists n s w, looked_up k = Some n /\
                  py_bool (_stores (self c) !! n) = false /\
                  _default_factory (self c) n (world c) = (Returned s, w) /\
                  perform repr k c = created n s w c)
            \/ (exists n e w, looked_up k = Some n /\
                  py_bool (_stores (self c) !! n) = false /\
                  _default_factory (self c) n (world c) = (Raised e, w) /\
                  perform repr k c = failed n w c)).
  { intros n Hk ->.
    destruct (get_cases n c) as [(s & _ & _ & ->) | [Hb ->]];
      [left; reflexivity | right; right].
    destruct (create_cases n c) as [(s & w & Hf & ->) | (e & w & Hf & ->)].
    - left. exists n, s, w. auto.
    - right. exists n, e, w. auto. }
  destruct k as [n s o | n |].
  - simpl. destruct o.
    + right; left. exists n, s, true. rewrite register_override. auto.
    + destruct (_stores (self c) !! n) as [old|] eqn:Hl.
      * left. rewrite (register_duplicate repr n s c old Hl). reflexivity.
      * right; left. exists n, s, false.
        rewrite (register_absent repr n s false c Hl). auto.
  - apply (Hget n); reflexivity.
  - apply (Hget "default"); reflexivity.
Qed.

Lemma perform_all_cons k ks c :
  perform_all repr (k :: ks) c = perform_all repr ks (perform repr k c).
Proof. reflexivity. Qed.




Lemma perform_factory k c :
  _default_factory (self (perform repr k c)) = _default_factory (self c).
Proof.
  destruct (perform_cases k c)
    as [-> | [(n & s & o & _ & _ & ->) | [(n & s & w & _ & _ & _ & ->)
                                        | (n & e & w & _ & _ & _ & ->)]]];
    reflexivity.
Qed.





(** One call on a registry with the fallback factory keeps the heap
    discipline: bound stores are allocated, and stores made since address
    [n0] are bound under one name each. *)
Lemma perform_fresh (n0 : addr) k c :
  _default_factory (self c) = default_default_factory ->
  n0 <= next_addr (world c) ->
  allocated c ->
  exclusive n0 c ->
  registers_below n0 k = true ->
  n0 <= next_addr (world (perform repr k c)) /\
  allocated (perform repr k c) /\
  exclusive n0 (perform repr k c).
Proof.
  intros Hfac Hn0 Hal Hex Hk.
  destruct (perform_cases k c)
    as [-> | [(n & s & o & -> & _ & ->) | [(n & s & w & _ & _ & Hf & ->)
                                         | (n & e & w & _ & _ & Hf & ->)]]].
  - auto.
  - simpl in Hk. apply bool_decide_eq_true_1 in Hk.
    split; [exact Hn0 |]. split.
    + intros m s' Hm. simpl in Hm |- *.
      destruct (decide (n = m)) as [-> | Hne].
      * rewrite lookup_insert_eq in Hm. injection Hm as <-. lia.
      * rewrite lookup_insert_ne in Hm by exact Hne. eauto.
    + intros a b sa sb Hab Ha Hb Hge. simpl in Ha, Hb.
      destruct (decide (n = a)) as [-> | Hna].
      * rewrite lookup_insert_eq in Ha. injection Ha as <-. lia.
      * rewrite lookup_insert_ne in Ha by exact Hna.
        destruct (decide (n = b)) as [-> | Hnb].
        -- rewrite lookup_insert_eq in Hb. injection Hb as <-.
           intros ->. lia.
        -- rewrite lookup_insert_ne in Hb by exact Hnb. eauto.
  - rewrite Hfac in Hf. injection Hf as <- <-.
    split; [simpl; lia |]. split.
    + intros m s' Hm. simpl in Hm |- *.
      destruct (decide (n = m)) as [-> | Hne].
      * rewrite lookup_insert_eq in Hm. injection Hm as <-. simpl. lia.
      * rewrite lookup_insert_ne in Hm by exact Hne.
        specialize (Hal m s' Hm). lia.
    + intros a b sa sb Hab Ha Hb Hge. simpl in Ha, Hb.
      destruct (decide (n = a)) as [-> | Hna].
      * rewrite lookup_insert_eq in Ha. injection Ha as <-.
        rewrite lookup_insert_ne in Hb by exact Hab.
        specialize (Hal b sb Hb). intros <-. simpl in Hal. lia.
      * rewrite lookup_insert_ne in Ha by exact Hna.
        destruct (decide (n = b)) as [-> | Hnb].
        -- rewrite lookup_insert_eq in Hb. injection Hb as <-.
           specialize (Hal a sa Ha). intros ->. simpl in Hal. lia.
        -- rewrite lookup_insert_ne in Hb by exact Hnb. eauto.
  - rewrite Hfac in Hf. discriminate.
Qed.

Lemma perform_all_fresh (n0 : addr) ks c :
  _default_factory (self c) = default_default_factory ->
  n0 <= next_addr (world c) ->
  allocated c ->
  exclusive n0 c ->
  Forall (fun k => registers_below n0 k = true) ks ->
  allocated (perform_all repr ks c) /\
  exclusive n0 (perform_all repr ks c).
Proof.
  intros Hfac Hn0 Hal Hex Hks. revert c Hfac Hn0 Hal Hex.
  induction Hks as [|k ks Hk _ IH]; intros c Hfac Hn0 Hal Hex; [auto |].
  rewrite perform_all_cons.
  destruct (perform_fresh n0 k c Hfac Hn0 Hal Hex Hk) as (Hn0' & Hal' & Hex').
  apply IH; try assumption. rewrite perform_factory. exact Hfac.
Qed.

(** With the fallback factory, a store made during a sequence of calls is
    never shared: whatever lookups and registrations of older stores the
    sequence holds, a store allocated since its start is bound under one
    name only, and every bound store is an allocated one. *)
Theorem fallback_stores_not_shared ks c :
  _default_factory (self c) = default_default_factory ->
  allocated c ->
  Forall (fun k => registers_below (next_addr (world c)) k = true) ks ->
  allocated (perform_all repr ks c) /\
  exclusive (next_addr (world c)) (perform_all repr ks c).
Proof.
  intros Hfac Hal Hks.
  apply perform_all_fresh; try assumption; [lia |].
  intros a b sa sb _ Ha _ Hge. specialize (Hal a sa Ha). lia.
Qed.


End RegistryRuns.

(** ** Lookups, registrations and the constructor together *)

Section RegistryComposition.

Context {U : Type}.
Variable repr : string -> string.

Implicit Types (c : Config U) (name : string) (s store : Store).

(** What [get] establishes: the store it returns is the one bound under
    the name afterwards, whichever branch was taken; and when that store
    is true, asking again returns it again and changes nothing. *)
Theorem get_returned_is_bound name c s c' :
  get name c = (Returned s, c') ->
  _stores (self c') !! name = Some s /\
  (store_truth s = true -> get name c' = (Returned s, c')).
Proof.
  intros Hg.
  assert (Hb : _stores (self c') !! name = Some s).
  { destruct (get_cases name c) as [(s0 & Hl & _ & Hs) | [_ Hc]].
    - rewrite Hs in Hg. injection Hg as <- <-. exact Hl.
    - rewrite Hc in Hg.
      destruct (create_cases name c)
        as [(s0 & w & _ & Hr) | (e & w & _ & Hr)]; rewrite Hr in Hg.
      + injection Hg as <- <-. simpl. apply lookup_insert_eq.
      + discriminate. }
  split; [exact Hb | intros Ht; apply get_true; assumption].
Qed.

(** With the fallback factory [get] never raises: it returns a store that
    is true and bound under the name, and a second [get] returns the same
    store with no further factory call. This holds from every
    configuration, also when a false store was bound under the name. *)
Theorem get_fallback_returns name c :
  _default_factory (self c) = default_default_factory ->
  exists s c',
    get name c = (Returned s, c') /\
    store_truth s = true /\
    _stores (self c') !! name = Some s /\
    get name c' = (Returned s, c').
Proof.
  intros Hfac.
  destruct (get_cases name c) as [(s & Hl & Ht & Hs) | [_ Hc]].
  - exists s, c. rewrite Hs. auto.
  - set (s := mkStore (next_addr (world c)) true).
    set (w := mkWorld (S (next_addr (world c))) (user (world c))).
    assert (Hg : get name c = (Returned s, created name s w c)).
    { rewrite Hc. apply create_returned. rewrite Hfac. reflexivity. }
    assert (Hb : _stores (self (created name s w c)) !! name = Some s)
      by (simpl; apply lookup_insert_eq).
    exists s, (created name s w c).
    split; [exact Hg |]. split; [reflexivity |]. split; [exact Hb |].
    apply get_true; [exact Hb | reflexivity].
Qed.

(** The last [register] with override wins: after any [register] under a
    name, one with override under the same name leaves the configuration
    that it would have left alone, the earlier store being dropped. *)
Theorem register_override_last_wins name s1 o1 s2 c :
  register repr name s2 true (after (register repr name s1 o1 c))
  = register repr name s2 true c /\
  _stores (self (after (register repr name s2 true
                          (after (register repr name s1 o1 c))))) !! name
  = Some s2.
Proof.
  rewrite !register_override. split.
  - f_equal.
    destruct (register_cases repr name s1 o1 c) as [[e ->] | ->];
      [reflexivity |].
    unfold registered, after. simpl. rewrite insert_insert_eq. reflexivity.
  - unfold after. simpl. apply lookup_insert_eq.
Qed.

(** Registrations under two different names do not interfere: whether a
    [register] raises does not depend on an earlier [register] under the
    other name, and both orders leave the same entries. *)
Theorem registers_independent (n m : string) s t (o p : bool) c :
  n <> m ->
  result (register repr n s o (after (register repr m t p c)))
  = result (register repr n s o c) /\
  forall x,
    _stores (self (after (register repr n s o
                            (after (register repr m t p c))))) !! x
    = _stores (self (after (register repr m t p
                              (after (register repr n s o c))))) !! x.
Proof.
  intros Hnm.
  assert (Hn : forall c1 c2,
            _stores (self c1) !! n = _stores (self c2) !! n ->
            result (register repr n s o c1) = result (register repr n s o c2)).
  { intros c1 c2 Hl. unfold register, bind, stores_contains, result.
    rewrite Hl.
    destruct (negb o && bool_decide (is_Some (_stores (self c2) !! n)));
      reflexivity. }
  assert (Hm : forall c0, _stores (self (after (register repr m t p c0))) !! n
                          = _stores (self c0) !! n).
  { intros c0. unfold after.
    destruct (register_self repr m t p c0) as [-> | ->];
      [reflexivity | simpl; apply lookup_insert_ne; congruence]. }
  assert (Hn' : forall c0, _stores (self (after (register repr n s o c0))) !! m
                           = _stores (self c0) !! m).
  { intros c0. unfold after.
    destruct (register_self repr n s o c0) as [-> | ->];
      [reflexivity | simpl; apply lookup_insert_ne, Hnm]. }
  split; [apply Hn, Hm |].
  intros x.
  assert (Hstep : forall k u q c0,
            _stores (self (after (register repr k u q c0))) !! x
            = if decide (k = x)
              then (if negb q && bool_decide (is_Some (_stores (self c0) !! k))
                    then _stores (self c0) !! x else Some u)
              else _stores (self c0) !! x).
  { intros k u q c0. unfold after, register, bind, stores_contains.
    destruct (negb q && bool_decide (is_Some (_stores (self c0) !! k)));
      simpl; destruct (decide (k = x)) as [-> | Hne]; try reflexivity.
    - apply lookup_insert_eq.
    - apply lookup_insert_ne, Hne. }
  rewrite !Hstep. rewrite Hm, Hn'.
  destruct (decide (n = x)) as [-> | Hnx], (decide (m = x)) as [-> | Hmx];
    try reflexivity; congruence.
Qed.


End RegistryComposition.

(** ** The registry object and the dictionary it refers to *)

Section ReferenceFacts.

Context {U : Type}.
Variable repr : string -> string.

Implicit Types (m : Memory U) (o : RegistryObject U) (name : string)
  (k : call) (ks : list call).

Lemma dict_at_update a d ds (w : World U) log :
  dict_at a (mkMemory (<[a := d]> ds) w log) = d.
Proof. unfold dict_at. simpl. rewrite lookup_insert_eq. reflexivity. Qed.

Lemma ref_create_sim o name m :
  fst (ref_create o name m) = fst (create name (view o m)) /\
  view o (snd (ref_create o name m)) = snd (create name (view o m)) /\
  forall b, b <> stores_at o ->
            dicts (snd (ref_create o name m)) !! b = dicts m !! b.
Proof.
  unfold ref_create, ref_bind, ref_call_factory, ref_setitem,
    create, bind, call_default_factory, stores_setitem, view. simpl.
  destruct (factory_of o name (heap_world m)) as [[s|e] w]; simpl.
  - split; [reflexivity |]. split.
    + rewrite dict_at_update. reflexivity.
    + intros b Hb. apply lookup_insert_ne. congruence.
  - auto.
Qed.

Lemma ref_get_sim o name m :
  fst (ref_get o name m) = fst (get name (view o m)) /\
  view o (snd (ref_get o name m)) = snd (get name (view o m)) /\
  forall b, b <> stores_at o ->
            dicts (snd (ref_get o name m)) !! b = dicts m !! b.
Proof.
  pose proof (ref_create_sim o name m) as Hc.
  unfold ref_get, ref_bind, ref_dict_get, get, bind, stores_get.
  simpl. destruct (dict_at (stores_at o) m !! name) as [s|]; simpl.
  - destruct (store_truth s); simpl; [auto | exact Hc].
  - exact Hc.
Qed.

Lemma ref_register_sim o name store override m :
  fst (ref_register repr o name store override m)
  = fst (register repr name store override (view o m)) /\
  view o (snd (ref_register repr o name store override m))
  = snd (register repr name store override (view o m)) /\
  forall b, b <> stores_at o ->
            dicts (snd (ref_register repr o name store override m)) !! b
            = dicts m !! b.
Proof.
  unfold ref_register, ref_bind, ref_contains, ref_setitem,
    register, bind, stores_contains, stores_setitem, raise, view. simpl.
  destruct (negb override
            && bool_decide (is_Some (dict_at (stores_at o) m !! name)));
    simpl; [auto |].
  split; [reflexivity |]. split.
  - rewrite dict_at_update. reflexivity.
  - intros b Hb. apply lookup_insert_ne. congruence.
Qed.

Lemma ref_perform_sim o k m :
  view o (ref_perform repr o k m) = perform repr k (view o m) /\
  forall b, b <> stores_at o ->
            dicts (ref_perform repr o k m) !! b = dicts m !! b.
Proof.
  destruct k as [n s p | n |]; simpl; unfold after.
  - destruct (ref_register_sim o n s p m) as (_ & Hv & Hd). auto.
  - destruct (ref_get_sim o n m) as (_ & Hv & Hd). auto.
  - destruct (ref_get_sim o "default" m) as (_ & Hv & Hd). auto.
Qed.

Lemma ref_perform_all_sim o ks m :
  view o (ref_perform_all repr o ks m) = perform_all repr ks (view o m) /\
  forall b, b <> stores_at o ->
            dicts (ref_perform_all repr o ks m) !! b = dicts m !! b.
Proof.
  revert m. induction ks as [|k ks IH]; intros m; [auto |].
  simpl. destruct (IH (ref_perform repr o k m)) as [Hv Hd].
  destruct (ref_perform_sim o k m) as [Hv1 Hd1].
  split.
  - rewrite Hv, Hv1. reflexivity.
  - intros b Hb. rewrite Hd, Hd1 by exact Hb. reflexivity.
Qed.


(** A dictionary that is not empty is shared with the registry built on
    it: construction allocates nothing and keeps the caller's address, and
    after every sequence of calls the caller's dictionary holds exactly
    the entries of the registry, those bound by [register] and [get]
    included. *)
Theorem nonempty_dict_is_shared (a : addr) f o m m0 ks :
  dict_at a m <> ∅ ->
  ref_init (Some a) f m = (o, m0) ->
  stores_at o = a /\
  m0 = m /\
  dict_at a (ref_perform_all repr o ks m0)
  = _stores (self (perform_all repr ks (view o m0))).
Proof.
  intros Hne Hi. unfold ref_init in Hi.
  destruct (decide (dict_at a m = ∅)) as [He | _]; [contradiction |].
  injection Hi as <- <-. split; [reflexivity |]. split; [reflexivity |].
  destruct (ref_perform_all_sim (mkRegistryObject a
              match f with Some f0 => f0 | None => default_default_factory end)
              ks m) as [Hv _].
  rewrite <- Hv. reflexivity.
Qed.



(** Two registries constructed on one dictionary that is not empty work
    on the same entries: a store registered through the first is what
    [get] on the second returns for that name (the store being true),
    without a call of the second registry's factory. *)
Theorem registries_on_one_dict_share (a : addr) f g o1 o2 m m1 m2 name store :
  dict_at a m <> ∅ ->
  ref_init (Some a) f m = (o1, m1) ->
  ref_init (Some a) g m1 = (o2, m2) ->
  store_truth store = true ->
  ref_get o2 name (snd (ref_register repr o1 name store true m2))
  = (Returned store, snd (ref_register repr o1 name store true m2)).
Proof.
  intros Hne H1 H2 Ht. unfold ref_init in H1.
  destruct (decide (dict_at a m = ∅)) as [He | _]; [contradiction |].
  injection H1 as <- <-. unfold ref_init in H2.
  destruct (decide (dict_at a m = ∅)) as [He | _]; [contradiction |].
  injection H2 as <- <-.
  unfold ref_register, ref_bind, ref_contains, ref_setitem. simpl.
  unfold ref_get, ref_bind, ref_dict_get. simpl.
  rewrite dict_at_update, lookup_insert_eq. simpl. rewrite Ht. reflexivity.
Qed.

End ReferenceFacts.

(** ** Route handlers of the test clients *)

Section TestClientFacts.

Variable is_controller_class : value -> bool.

(** Sequence objects are not classes. *)
Hypothesis sequence_not_class :
  forall v, isinstance_Sequence v = true -> is_controller_class v = false.

(** Both test clients construct the application with a sequence of route
    handlers, whatever was passed: [None] gives the empty tuple, one
    object that is not a sequence (a handler, a controller class) gives
    the tuple of that object, and a sequence is passed on as it is.
    Bringing the result to this form a second time changes nothing. *)
Theorem route_handlers_always_sequence (v : value) :
  isinstance_Sequence (create_test_client_route_handlers is_controller_class v)
  = true /\
  items_of (create_test_client_route_handlers is_controller_class v)
  = (if isinstance_Sequence v then items_of v
     else match v with VNone => [] | _ => [v] end) /\
  (isinstance_Sequence v = true ->
   create_test_client_route_handlers is_controller_class v = v) /\
  create_test_client_route_handlers is_controller_class
    (create_test_client_route_handlers is_controller_class v)
  = create_test_client_route_handlers is_controller_class v /\
  create_async_test_client_route_handlers is_controller_class v
  = create_test_client_route_handlers is_controller_class v.
Proof.
  assert (Hseq : forall u, isinstance_Sequence u = true ->
            create_test_client_route_handlers is_controller_class u = u).
  { intros u Hu. unfold create_test_client_route_handlers.
    destruct u; try discriminate; simpl;
      rewrite sequence_not_class by reflexivity; reflexivity. }
  assert (Hres : isinstance_Sequence
                   (create_test_client_route_handlers is_controller_class v)
                 = true).
  { unfold create_test_client_route_handlers.
    destruct v; simpl;
      rewrite ?(sequence_not_class (VTuple _)),
              ?(sequence_not_class (VSequence _ _)) by reflexivity;
      simpl; try reflexivity;
      rewrite orb_true_r; reflexivity. }
  split; [exact Hres |]. split.
  - unfold create_test_client_route_handlers.
    destruct v; simpl;
      rewrite ?(sequence_not_class (VTuple _)),
              ?(sequence_not_class (VSequence _ _)) by reflexivity;
      simpl; try reflexivity;
      rewrite orb_true_r; reflexivity.
  - split; [exact (Hseq v) |]. split; [apply Hseq, Hres | reflexivity].
Qed.

End TestClientFacts.

(** ** Runs of the invariants *)

Lemma stocked_stores :
  _stores stocked_registry = {["m" := memory_store]}.
Proof.
  unfold stocked_registry, __init__.
  destruct (decide (({["m" := memory_store]} : gmap string Store) = ∅))
    as [He | _]; [| reflexivity].
  exfalso. exact (map_non_empty_singleton _ _ He).
Qed.


Lemma stocked_allocated : allocated (start stocked_registry).
Proof.
  intros name s Hl.
  change (_stores stocked_registry !! name = Some s) in Hl.
  rewrite stocked_stores in Hl.
  apply lookup_singleton_Some in Hl as [_ <-]. simpl. lia.
Qed.



Lemma fallback_stores_not_shared_witness :
  allocated (perform_all repr_plain session (start stocked_registry)) /\
  exclusive 2 (perform_all repr_plain session (start stocked_registry)).
Proof.
  apply (fallback_stores_not_shared repr_plain session
           (start stocked_registry)).
  - reflexivity.
  - exact stocked_allocated.
  - unfold session. repeat constructor.
Defined.


Lemma get_returned_is_bound_witness :
  get "x" (start seeded_registry)
  = (Returned (mkStore 2 true),
     created "x" (mkStore 2 true) (mkWorld 3 tt) (start seeded_registry)) /\
  _stores (self (created "x" (mkStore 2 true) (mkWorld 3 tt)
                   (start seeded_registry))) !! "x"
  = Some (mkStore 2 true).
Proof.
  split; [reflexivity |].
  apply (get_returned_is_bound "x" (start seeded_registry)). reflexivity.
Defined.

Lemma get_fallback_returns_witness :
  exists s c',
    get "x" (start seeded_registry) = (Returned s, c') /\
    get "x" c' = (Returned s, c').
Proof.
  destruct (get_fallback_returns "x" (start seeded_registry))
    as (s & c' & H1 & _ & _ & H2); [reflexivity |].
  exists s, c'. split; [exact H1 | exact H2].
Defined.

Lemma registers_independent_witness :
  "a" <> "b" /\
  result (register repr_plain "a" memory_store false
            (after (register repr_plain "b" empty_store false
                      (start empty_registry))))
  = result (register repr_plain "a" memory_store false (start empty_registry)).
Proof.
  split; [discriminate |].
  apply (registers_independent repr_plain "a" "b" memory_store empty_store
           false false (start empty_registry)).
  discriminate.
Defined.


(** ** Runs on the heap *)

Lemma heap0_dict3 : dict_at 3 heap0 = {["m" := memory_store]}.
Proof. vm_compute. reflexivity. Qed.

Lemma heap0_dict3_not_empty : dict_at 3 heap0 <> ∅.
Proof. rewrite heap0_dict3. apply map_non_empty_singleton. Qed.

Lemma nonempty_dict_is_shared_witness :
  stores_at (fst (ref_init (Some 3) None heap0)) = 3 /\
  snd (ref_init (Some 3) None heap0) = heap0 /\
  dict_at 3 (ref_perform_all repr_plain (fst (ref_init (Some 3) None heap0))
               session (snd (ref_init (Some 3) None heap0)))
  = _stores (self (perform_all repr_plain session
                     (view (fst (ref_init (Some 3) None heap0))
                           (snd (ref_init (Some 3) None heap0))))).
Proof.
  apply (nonempty_dict_is_shared repr_plain 3 None).
  - exact heap0_dict3_not_empty.
  - apply surjective_pairing.
Defined.



Lemma registries_on_one_dict_share_witness :
  store_truth memory_store = true /\
  fst (ref_get (fst (ref_init (Some 3) (Some failing_factory) heap0)) "x"
         (snd (ref_register repr_plain (fst (ref_init (Some 3) None heap0))
                 "x" memory_store true heap0)))
  = Returned memory_store.
Proof.
  split; [reflexivity |].
  rewrite (registries_on_one_dict_share repr_plain 3 None
             (Some failing_factory)
             (fst (ref_init (Some 3) None heap0))
             (fst (ref_init (Some 3) (Some failing_factory) heap0))
             heap0 heap0 heap0 "x" memory_store).
  - reflexivity.
  - exact heap0_dict3_not_empty.
  - vm_compute. reflexivity.
  - vm_compute. reflexivity.
  - reflexivity.
Defined.

(** ** Runs of the test clients *)

Lemma route_handlers_always_sequence_witness :
  create_test_client_route_handlers even_objects_are_controllers (VObject 2)
  = VTuple [VObject 2] /\
  isinstance_Sequence
    (create_test_client_route_handlers even_objects_are_controllers (VObject 2))
  = true.
Proof.
  split; [reflexivity |].
  apply (route_handlers_always_sequence even_objects_are_controllers).
  intros v Hv. destruct v; simpl in *; congruence.
Defined.
